(** * Sign-in form of [src/App.jsx]: validators, handlers and derived validity

    The development embeds the logic of the [App] component:
    the two validators, the three event handlers, the memoised
    [isFormValid] flag and the render cycle that ties them together.

    - A JavaScript string is a sequence of UTF-16 code units ([list N]);
      [length] is its [.length].
    - [EMAIL_REGEX] is a pattern value run by a backtracking matcher that
      follows the built-in [RegExp.prototype.test] (flags, [lastIndex],
      scan over start positions).
    - Handlers run in a small monad over an environment holding what a
      handler can touch besides the values it closes over: the queued state
      updates, the console, the event's [defaultPrevented] flag and the
      [lastIndex] slot of the shared regex object. *)

From Stdlib Require Import List NArith Bool Arith Lia String Ascii DecimalString.
Import ListNotations.

(* ================================================================== *)
(** ** JavaScript strings *)
(* ================================================================== *)

Module Js.

(** A string is its sequence of UTF-16 code units. *)
Definition jsstring := list N.

(** The code units of an ASCII literal of the source. *)
Definition lit (s : string) : jsstring :=
  map N_of_ascii (list_ascii_of_string s).

Definition cu (a : ascii) : N := N_of_ascii a.

(** [a === b] on strings. *)
Fixpoint strictEq (a b : jsstring) : bool :=
  match a, b with
  | [], [] => true
  | x :: a', y :: b' => N.eqb x y && strictEq a' b'
  | _, _ => false
  end.

(** [ToBoolean] on a string: only the empty string is falsy. *)
Definition truthy (s : jsstring) : bool :=
  match s with [] => false | _ :: _ => true end.

(** [s.length], a Number. *)
Definition jslength (s : jsstring) : N := N.of_nat (List.length s).

(** [Number::toString] on a non-negative integer (radix 10), as used by a
    template literal substitution. *)
Definition Number_toString (n : N) : jsstring :=
  lit (NilEmpty.string_of_uint (N.to_uint n)).

(** [WhiteSpace] or [LineTerminator] of ECMAScript: what [\s] matches. *)
Definition isWhiteSpaceOrLT (c : N) : bool :=
  (((9 <=? c) && (c <=? 13))           (* TAB LF VT FF CR *)
  || (c =? 32)                        (* SPACE *)
  || (c =? 160)                       (* NBSP *)
  || (c =? 5760)                      (* U+1680 *)
  || ((8192 <=? c) && (c <=? 8202))   (* U+2000 .. U+200A *)
  || (c =? 8232) || (c =? 8233)       (* LS, PS *)
  || (c =? 8239)                      (* U+202F *)
  || (c =? 8287)                      (* U+205F *)
  || (c =? 12288)                     (* U+3000 *)
  || (c =? 65279)                     (* U+FEFF *)
  )%N.

End Js.
Import Js.

(* ================================================================== *)
(** ** Regular expressions: the fragment [EMAIL_REGEX] is written in *)
(* ================================================================== *)

Module RegExp.

Inductive Atom :=
| PatternCharacter (c : N)      (* an ordinary character, as [@] *)
| IdentityEscape (c : N)        (* an escaped character, as [\.] *)
| ClassEscape_S.                (* [\S] *)

Inductive Quantifier :=
| Once                          (* no quantifier *)
| OneOrMore.                    (* [+], greedy *)

Inductive Term :=
| AssertStart                   (* [^] *)
| AssertEnd                     (* [$] *)
| TAtom (a : Atom) (q : Quantifier).

Definition Pattern := list Term.

Record t := mk {
  source : Pattern;
  global : bool;                (* flag g *)
  sticky : bool                 (* flag y *)
}.

Definition atomMatches (a : Atom) (c : N) : bool :=
  match a with
  | PatternCharacter d => N.eqb c d
  | IdentityEscape d => N.eqb c d
  | ClassEscape_S => negb (isWhiteSpaceOrLT c)
  end.

(** The backtracking matcher. [matchTerms ts pos rest] runs the terms
    [ts] at index [pos] of the input, [rest] being the input from [pos] on,
    and returns the end index of the first match found. A greedy [+] takes
    one more character first and gives it back when the rest fails.
    Neither the multiline nor the ignore-case flag is modelled: the source
    regex has no flag. *)
Fixpoint matchTerms (ts : Pattern) : nat -> jsstring -> option nat :=
  match ts with
  | [] => fun pos _ => Some pos
  | AssertStart :: ts' =>
      fun pos rest => if Nat.eqb pos 0 then matchTerms ts' pos rest else None
  | AssertEnd :: ts' =>
      fun pos rest =>
        match rest with
        | [] => matchTerms ts' pos rest
        | _ :: _ => None
        end
  | TAtom a Once :: ts' =>
      fun pos rest =>
        match rest with
        | c :: r => if atomMatches a c then matchTerms ts' (S pos) r else None
        | [] => None
        end
  | TAtom a OneOrMore :: ts' =>
      fix more (pos : nat) (rest : jsstring) {struct rest} : option nat :=
        match rest with
        | c :: r =>
            if atomMatches a c then
              match more (S pos) r with
              | Some e => Some e
              | None => matchTerms ts' (S pos) r
              end
            else None
        | [] => None
        end
  end.

(** The scan of [RegExpBuiltinExec]: try index [i]; on failure give up
    when sticky, else move one code unit on; past the end, fail. *)
Fixpoint scan (ts : Pattern) (stickyFlag : bool) (i : nat) (rest : jsstring)
  : option nat :=
  match matchTerms ts i rest with
  | Some e => Some e
  | None =>
      if stickyFlag then None
      else match rest with
           | [] => None
           | _ :: r => scan ts stickyFlag (S i) r
           end
  end.

(** [RegExpBuiltinExec(R, S)] given the current [lastIndex] of [R]:
    the match result (its end index) and the new [lastIndex]. *)
Definition builtinExec (R : t) (lastIndex : nat) (S : jsstring)
  : option nat * nat :=
  let stateful := global R || sticky R in
  let start := if stateful then lastIndex else 0 in
  if Nat.ltb (List.length S) start then
    (None, if stateful then 0 else lastIndex)
  else
    match scan (source R) (sticky R) start (skipn start S) with
    | Some e => (Some e, if stateful then e else lastIndex)
    | None => (None, if stateful then 0 else lastIndex)
    end.

End RegExp.

(* --- Configuration Constants --- *)

(** [const EMAIL_REGEX = /^\S+@\S+\.\S+$/;] *)
Definition EMAIL_REGEX : RegExp.t :=
  RegExp.mk
    [ RegExp.AssertStart;
      RegExp.TAtom RegExp.ClassEscape_S RegExp.OneOrMore;
      RegExp.TAtom (RegExp.PatternCharacter (cu "@"%char)) RegExp.Once;
      RegExp.TAtom RegExp.ClassEscape_S RegExp.OneOrMore;
      RegExp.TAtom (RegExp.IdentityEscape (cu "."%char)) RegExp.Once;
      RegExp.TAtom RegExp.ClassEscape_S RegExp.OneOrMore;
      RegExp.AssertEnd ]
    false false.

(** [const MIN_PASSWORD_LENGTH = 6;] *)
Definition MIN_PASSWORD_LENGTH : N := 6.

(* ================================================================== *)
(** ** The environment of a handler and its monad *)
(* ================================================================== *)

(** The five [useState] slots of [App]. *)
Record State := mkState {
  email : jsstring;
  password : jsstring;
  emailError : jsstring;
  passwordError : jsstring;
  isSubmitted : bool
}.

Inductive ConsoleEntry :=
| ConsoleError (msg : jsstring)
| ConsoleLog (msg : jsstring) (emailField passwordField : jsstring).

(** What running code can read or write apart from its arguments and the
    values it closes over. *)
Record Env := mkEnv {
  queued : State;                   (* state after the updates queued so far *)
  console : list ConsoleEntry;      (* newest entry first *)
  defaultPrevented : bool;          (* of the event being handled *)
  EMAIL_REGEX_lastIndex : nat       (* the [lastIndex] slot of [EMAIL_REGEX] *)
}.

(** How a piece of code finishes. *)
Inductive Completion (A : Type) :=
| Normal (a : A)
| Throw (reason : jsstring).
Arguments Normal {A} a.
Arguments Throw {A} reason.

Definition M (A : Type) : Type := Env -> Completion A * Env.

Definition ret {A} (a : A) : M A := fun w => (Normal a, w).

Definition bind {A B} (m : M A) (k : A -> M B) : M B :=
  fun w =>
    match m w with
    | (Normal a, w') => k a w'
    | (Throw r, w') => (Throw r, w')
    end.

Declare Scope js_scope.
Delimit Scope js_scope with js.
Notation "x <- m ;; k" := (bind m (fun x => k))
  (at level 61, m at next level, right associativity) : js_scope.
Notation "m ;; k" := (bind m (fun _ => k))
  (at level 61, right associativity) : js_scope.
Local Open Scope js_scope.

(** The value a computation returns from [w], if it completes normally. *)
Definition valueOf {A} (m : M A) (w : Env) : option A :=
  match fst (m w) with
  | Normal a => Some a
  | Throw _ => None
  end.

(** *** Primitive effects *)

Definition updQueued (f : State -> State) : M unit :=
  fun w => (Normal tt,
            mkEnv (f (queued w)) (console w) (defaultPrevented w)
                  (EMAIL_REGEX_lastIndex w)).

Definition setEmail (v : jsstring) : M unit :=
  updQueued (fun s => mkState v (password s) (emailError s) (passwordError s)
                              (isSubmitted s)).
Definition setPassword (v : jsstring) : M unit :=
  updQueued (fun s => mkState (email s) v (emailError s) (passwordError s)
                              (isSubmitted s)).
Definition setEmailError (v : jsstring) : M unit :=
  updQueued (fun s => mkState (email s) (password s) v (passwordError s)
                              (isSubmitted s)).
Definition setPasswordError (v : jsstring) : M unit :=
  updQueued (fun s => mkState (email s) (password s) (emailError s) v
                              (isSubmitted s)).
Definition setIsSubmitted (b : bool) : M unit :=
  updQueued (fun s => mkState (email s) (password s) (emailError s)
                              (passwordError s) b).

Definition console_put (entry : ConsoleEntry) : M unit :=
  fun w => (Normal tt,
            mkEnv (queued w) (entry :: console w) (defaultPrevented w)
                  (EMAIL_REGEX_lastIndex w)).

(** [e.preventDefault()] *)
Definition preventDefault : M unit :=
  fun w => (Normal tt,
            mkEnv (queued w) (console w) true (EMAIL_REGEX_lastIndex w)).

(** [EMAIL_REGEX.test(input)]: runs the built-in on the shared object,
    reading and writing its [lastIndex]. *)
Definition EMAIL_REGEX_test (input : jsstring) : M bool :=
  fun w =>
    let '(r, li) :=
      RegExp.builtinExec EMAIL_REGEX (EMAIL_REGEX_lastIndex w) input in
    (Normal (match r with Some _ => true | None => false end),
     mkEnv (queued w) (console w) (defaultPrevented w) li).

(** [a || b] on strings. *)
Definition jsOr (a b : jsstring) : jsstring := if truthy a then a else b.

(* ================================================================== *)
(** ** The [App] component *)
(* ================================================================== *)

(* --- Validation Functions --- *)

Definition validateEmail (input : jsstring) : M jsstring :=
  if negb (truthy input) then ret (lit "Email is required.")
  else
    ok <- EMAIL_REGEX_test input ;;
    if negb ok
    then ret (lit "Please enter a valid email address (e.g., user@domain.com).")
    else ret [].

Definition validatePassword (input : jsstring) : jsstring :=
  if negb (truthy input) then lit "Password is required."
  else if (jslength input <? MIN_PASSWORD_LENGTH)%N
       then lit "Password must be at least "
              ++ Number_toString MIN_PASSWORD_LENGTH
              ++ lit " characters long."
       else [].

(* --- Event Handlers --- *)

Record ChangeEvent := { target_value : jsstring }.

Definition handleEmailChange (e : ChangeEvent) : M unit :=
  let newEmail := target_value e in
  setEmail newEmail ;;
  err <- validateEmail newEmail ;;
  setEmailError err ;;
  setIsSubmitted false.

Definition handlePasswordChange (e : ChangeEvent) : M unit :=
  let newPassword := target_value e in
  setPassword newPassword ;;
  setPasswordError (validatePassword newPassword) ;;
  setIsSubmitted false.

(** The factory given to [useMemo]. *)
Definition isFormValid_factory (email_ password_ : jsstring) : M bool :=
  ve <- validateEmail email_ ;;
  if strictEq ve []
  then ret (strictEq (validatePassword password_) [])
  else ret false.

(* --- Submission Handler --- *)

(** [handleSubmit] closes over the [email] and [password] of the render
    it was created in. *)
Definition handleSubmit (email_ password_ : jsstring) : M unit :=
  preventDefault ;;
  finalEmailError <- validateEmail email_ ;;
  let finalPasswordError := validatePassword password_ in
  setEmailError finalEmailError ;;
  setPasswordError finalPasswordError ;;
  if truthy (jsOr finalEmailError finalPasswordError) then
    console_put (ConsoleError (lit "Submission failed due to invalid form data.")) ;;
    setIsSubmitted false
  else
    console_put (ConsoleLog (lit "Form Submitted Successfully!") email_ password_) ;;
    setIsSubmitted true.

(* ================================================================== *)
(** ** The render cycle *)
(* ================================================================== *)

(** [areHookInputsEqual]: [Object.is] on each dependency; on strings it
    is equality of contents. The two validators are also listed as
    dependencies in the source; [useCallback(..., [])] keeps each of them
    the same function for the life of the component, so they never differ
    and only the string dependencies are kept here. *)
Fixpoint depsEqual (a b : list jsstring) : bool :=
  match a, b with
  | [], [] => true
  | x :: a', y :: b' => strictEq x y && depsEqual a' b'
  | _, _ => false
  end.

Definition MemoCell (A : Type) : Type := option (A * list jsstring).

(** [useMemo(factory, deps)] on its hook cell. *)
Definition useMemo {A} (cell : MemoCell A) (factory : M A)
  (deps : list jsstring) : M (A * MemoCell A) :=
  match cell with
  | Some (v, prevDeps) =>
      if depsEqual deps prevDeps then ret (v, cell)
      else v' <- factory ;; ret (v', Some (v', deps))
  | None => v' <- factory ;; ret (v', Some (v', deps))
  end.

(** What a component instance keeps between renders. *)
Record Instance := mkInstance {
  hookState : State;
  memoCell : MemoCell bool
}.

(** What one render returns: the props handed to the two [FormInput]s, the
    form's handler, the banner and the button. *)
Record View := mkView {
  emailValue : jsstring;
  emailErrorShown : jsstring;
  emailOnChange : ChangeEvent -> M unit;
  passwordValue : jsstring;
  passwordErrorShown : jsstring;
  passwordOnChange : ChangeEvent -> M unit;
  formOnSubmit : M unit;
  bannerShown : bool;
  isFormValid : bool       (* the button is [disabled={!isFormValid}] *)
}.

Record Mounted := mkMounted {
  inst : Instance;
  view : View
}.

(** One call of the function component [App]. *)
Definition App (i : Instance) : M Mounted :=
  let st := hookState i in
  memo <-
     useMemo (memoCell i)
       (isFormValid_factory (email st) (password st))
       [email st; password st] ;;
  let '(valid, cell') := memo in
  ret (mkMounted
         (mkInstance st cell')
         (mkView (email st) (emailError st) handleEmailChange
                 (password st) (passwordError st) handlePasswordChange
                 (handleSubmit (email st) (password st))
                 (isSubmitted st) valid)).

Definition initialState : State := mkState [] [] [] [] false.

Definition mount : M Mounted := App (mkInstance initialState None).

(** Run a handler for an event on the state [st] of the last render:
    the updates it queues are applied to [st] and give the next state. *)
Definition runHandler (st : State) (h : M unit) : M State :=
  fun w =>
    match h (mkEnv st (console w) false (EMAIL_REGEX_lastIndex w)) with
    | (Normal _, w') => (Normal (queued w'), w')
    | (Throw r, w') => (Throw r, w')
    end.

Inductive Event :=
| EmailChange (v : jsstring)
| PasswordChange (v : jsstring)
| Submit.

Definition fire (v : View) (ev : Event) : M unit :=
  match ev with
  | EmailChange x => emailOnChange v {| target_value := x |}
  | PasswordChange x => passwordOnChange v {| target_value := x |}
  | Submit => formOnSubmit v
  end.

(** An event reaches the handler of the last render; then [App] renders
    again with the new state. *)
Definition step (m : Mounted) (ev : Event) : M Mounted :=
  st' <- runHandler (hookState (inst m)) (fire (view m) ev) ;;
  App (mkInstance st' (memoCell (inst m))).

Fixpoint run (evs : list Event) (m : Mounted) : M Mounted :=
  match evs with
  | [] => ret m
  | ev :: evs' => m' <- step m ev ;; run evs' m'
  end.

Definition session (evs : list Event) : M Mounted :=
  m <- mount ;; run evs m.

(** The three operations as the specification names them, on a state. *)
Definition onEmailChange (v : jsstring) (st : State) : M State :=
  runHandler st (handleEmailChange {| target_value := v |}).

Definition onPasswordChange (v : jsstring) (st : State) : M State :=
  runHandler st (handlePasswordChange {| target_value := v |}).

Definition onSubmit (st : State) : M State :=
  runHandler st (handleSubmit (email st) (password st)).

(* ================================================================== *)
(** ** The element tree a render returns *)
(* ================================================================== *)

Module Jsx.

(** The icon components imported from [lucide-react]. *)
Inductive Icon := Mail | Lock | CheckCircle | XCircle.

Inductive PropValue :=
| PStr (s : jsstring)
| PBool (b : bool)
| POnChange (h : ChangeEvent -> M unit)
| POnSubmit (h : M unit).

#[local] Set Warnings "-register-all".

(** A React element with its props in source order and its children; an
    icon element; a string child; the child [false], which renders
    nothing. *)
Inductive Node :=
| Elem (tag : string) (props : list (string * PropValue))
       (children : list Node)
| IconElem (icon : Icon) (className : jsstring)
| TextNode (s : jsstring)
| FalseNode.

(** One prop of an element. *)
Definition attr (name : string) (v : PropValue) : string * PropValue :=
  (name, v).

(** A line break and [n] blanks, as they stand inside a template
    literal that runs over several source lines. *)
Definition nl : jsstring := [10%N].
Definition spaces (n : nat) : jsstring := repeat 32%N n.

End Jsx.
Import Jsx.

(* --- Reusable Input Component --- *)

Module Props.
Record t := mk {
  id : jsstring;
  label : jsstring;
  type : jsstring;
  value : jsstring;
  error : jsstring;
  onChange : ChangeEvent -> M unit;
  icon : Icon;
  placeholder : jsstring
}.
End Props.

(** The function component [FormInput]. The child [{error && (...)}] is
    the paragraph when [error] is truthy and [error] itself, the empty
    string, when it is not. *)
Definition FormInput (p : Props.t) : Node :=
  Elem "div" [attr "className" (PStr (lit "mb-6"))]
    [ Elem "label"
        [attr "htmlFor" (PStr (Props.id p));
         attr "className" (PStr (lit "block text-sm font-medium text-gray-700 dark:text-gray-300 mb-2 flex items-center"))]
        [ IconElem (Props.icon p) (lit "w-4 h-4 mr-2 text-indigo-500");
          TextNode (Props.label p) ];
      Elem "div" [attr "className" (PStr (lit "relative"))]
        [ Elem "input"
            [attr "type" (PStr (Props.type p));
             attr "id" (PStr (Props.id p));
             attr "value" (PStr (Props.value p));
             attr "onChange" (POnChange (Props.onChange p));
             attr "placeholder" (PStr (Props.placeholder p));
             attr "className"
              (PStr (lit "w-full px-4 py-2 border rounded-xl shadow-sm transition duration-150 ease-in-out dark:bg-gray-700 dark:border-gray-600 dark:text-white"
                    ++ nl ++ spaces 10
                    ++ (if truthy (Props.error p)
                        then lit "border-red-500 focus:ring-red-500 focus:border-red-500"
                        else lit "border-gray-300 focus:ring-indigo-500 focus:border-indigo-500")
                    ++ nl ++ spaces 8));
             attr "aria-invalid" (PBool (negb (negb (truthy (Props.error p)))));
             attr "aria-describedby" (PStr (Props.id p ++ lit "-error"))]
            [] ];
      if truthy (Props.error p) then
        Elem "p"
          [attr "id" (PStr (Props.id p ++ lit "-error"));
           attr "className" (PStr (lit "mt-2 text-sm text-red-600 dark:text-red-400 flex items-center"))]
          [ IconElem XCircle (lit "w-4 h-4 mr-1");
            TextNode (Props.error p) ]
      else TextNode (Props.error p) ].

(** The element tree [App] returns, from the values of the render. A
    [<FormInput .../>] element stands here as the tree [FormInput]
    returns for its props; [{isSubmitted && (...)}] is the banner or the
    child [false]. *)
Definition App_return (v : View) : Node :=
  Elem "div"
    [attr "className" (PStr (lit "min-h-screen bg-gray-50 dark:bg-gray-900 flex items-center justify-center p-4 font-['Inter']"))]
    [ Elem "div"
        [attr "className" (PStr (lit "w-full max-w-lg bg-white dark:bg-gray-800 p-8 md:p-10 rounded-3xl shadow-2xl transition duration-300"))]
        [ Elem "h1"
            [attr "className" (PStr (lit "text-4xl font-extrabold text-gray-900 dark:text-white mb-4 text-center"))]
            [ TextNode (lit "User Sign In") ];
          Elem "p"
            [attr "className" (PStr (lit "text-gray-500 dark:text-gray-400 mb-8 text-center"))]
            [ TextNode (lit "Please enter your credentials to access your account.") ];
          Elem "form"
            [attr "onSubmit" (POnSubmit (formOnSubmit v));
             attr "noValidate" (PBool true)]
            [ FormInput
                (Props.mk (lit "email") (lit "Email Address") (lit "email")
                   (emailValue v) (emailErrorShown v) (emailOnChange v)
                   Mail (lit "e.g., john.doe@mail.com"));
              FormInput
                (Props.mk (lit "password") (lit "Password") (lit "password")
                   (passwordValue v) (passwordErrorShown v)
                   (passwordOnChange v) Lock
                   (lit "Minimum " ++ Number_toString MIN_PASSWORD_LENGTH
                      ++ lit " characters"));
              if bannerShown v then
                Elem "div"
                  [attr "className" (PStr (lit "bg-green-100 dark:bg-green-700 border-l-4 border-green-500 text-green-700 dark:text-white p-4 rounded-lg mb-6 shadow-md"));
                   attr "role" (PStr (lit "status"))]
                  [ Elem "p"
                      [attr "className" (PStr (lit "font-semibold flex items-center"))]
                      [ IconElem CheckCircle (lit "w-5 h-5 mr-2");
                        TextNode (lit "Validation Successful!") ];
                    Elem "p"
                      [attr "className" (PStr (lit "text-sm mt-1"))]
                      [ TextNode (lit "The form is valid and data was logged to the console.") ] ]
              else FalseNode;
              Elem "button"
                [attr "type" (PStr (lit "submit"));
                 attr "disabled" (PBool (negb (isFormValid v)));
                 attr "className"
                  (PStr (lit "w-full py-3 mt-6 rounded-xl text-lg font-bold shadow-xl transition duration-300 ease-in-out transform"
                        ++ nl ++ spaces 14
                        ++ (if isFormValid v
                            then lit "bg-indigo-600 hover:bg-indigo-700 text-white shadow-indigo-500/50 hover:scale-[1.01]"
                            else lit "bg-indigo-300 text-indigo-100 cursor-not-allowed opacity-70")
                        ++ nl ++ spaces 12))]
                [ TextNode (lit "Sign In") ] ] ] ].

(* ================================================================== *)
(** ** Reading an element tree *)
(* ================================================================== *)

Module Dom.

Fixpoint lookupProp (name : string) (props : list (string * PropValue))
  : option PropValue :=
  match props with
  | [] => None
  | (k, v) :: rest => if String.eqb k name then Some v else lookupProp name rest
  end.

(** The prop [name] of an element. *)
Definition prop (name : string) (n : Node) : option PropValue :=
  match n with
  | Elem _ props _ => lookupProp name props
  | _ => None
  end.

Definition tagOf (n : Node) : option string :=
  match n with
  | Elem tag _ _ => Some tag
  | _ => None
  end.

Definition propIs (name : string) (s : jsstring) (n : Node) : bool :=
  match prop name n with
  | Some (PStr s') => strictEq s' s
  | _ => false
  end.

(** The elements that satisfy [f], in document order. *)
Fixpoint select (f : Node -> bool) (n : Node) : list Node :=
  match n with
  | Elem _ _ children =>
      (if f n then [n] else [])
        ++ (fix each (l : list Node) : list Node :=
              match l with
              | [] => []
              | c :: l' => select f c ++ each l'
              end) children
  | _ => []
  end.

(** [getElementById]: the first element in document order with that id. *)
Definition getElementById (i : jsstring) (n : Node) : option Node :=
  hd_error (select (propIs "id" i) n).

Definition getElementsByTagName (t : string) (n : Node) : list Node :=
  select (fun e => match tagOf e with
                   | Some t' => String.eqb t' t
                   | None => false
                   end) n.

Definition getElementsByRole (r : jsstring) (n : Node) : list Node :=
  select (propIs "role" r) n.

(** The ids given to elements of the tree, in document order. *)
Definition ids (n : Node) : list jsstring :=
  flat_map (fun e => match prop "id" e with
                     | Some (PStr s) => [s]
                     | _ => []
                     end)
           (select (fun _ => true) n).

(** [textContent]: the string children of the tree, joined. *)
Fixpoint textContent (n : Node) : jsstring :=
  match n with
  | Elem _ _ children =>
      (fix each (l : list Node) : jsstring :=
         match l with
         | [] => []
         | c :: l' => textContent c ++ each l'
         end) children
  | TextNode s => s
  | _ => []
  end.

End Dom.


(** Dispatching a submit event to the form of the last render. *)
Definition dispatchSubmit (m : Mounted) : M Mounted :=
  match Dom.getElementsByTagName "form" (App_return (view m)) with
  | f :: _ =>
      match Dom.prop "onSubmit" f with
      | Some (POnSubmit h) =>
          st' <- runHandler (hookState (inst m)) h ;;
          App (mkInstance st' (memoCell (inst m)))
      | _ => ret m
      end
  | [] => ret m
  end.

(* ================================================================== *)
(** ** What the specification says an accepted email looks like *)
(* ================================================================== *)

Module Shape.

Definition nonWhitespace (c : N) : Prop := isWhiteSpaceOrLT c = false.

(** One or more non-whitespace characters. *)
Definition nonWhitespaceRun (w : jsstring) : Prop :=
  w <> [] /\ Forall nonWhitespace w.

(** [non-space+ '@' non-space+ '.' non-space+], the whole string. *)
Definition emailShape (s : jsstring) : Prop :=
  exists a b c,
    s = a ++ cu "@" :: b ++ cu "." :: c
    /\ nonWhitespaceRun a /\ nonWhitespaceRun b /\ nonWhitespaceRun c.

End Shape.

(* ================================================================== *)
(** ** Definitions used to state and prove the properties *)
(* ================================================================== *)

Module Lang.
Import RegExp.

(** The language of a term list, read off the pattern: which inputs from
    [pos] on have some way through the terms. *)
Fixpoint Accepts (ts : Pattern) (pos : nat) (rest : jsstring) : Prop :=
  match ts with
  | [] => True
  | AssertStart :: ts' => pos = 0 /\ Accepts ts' pos rest
  | AssertEnd :: ts' => rest = [] /\ Accepts ts' pos rest
  | TAtom a Once :: ts' =>
      exists c r, rest = c :: r /\ atomMatches a c = true
                  /\ Accepts ts' (S pos) r
  | TAtom a OneOrMore :: ts' =>
      exists w r, rest = w ++ r /\ w <> []
                  /\ Forall (fun c => atomMatches a c = true) w
                  /\ Accepts ts' (pos + List.length w) r
  end.

End Lang.

Definition env0 : Env := mkEnv initialState [] false 0.

(** Whether the terms of [EMAIL_REGEX] match the whole of [s] from index 0. *)
Definition emailMatch (s : jsstring) : bool :=
  match RegExp.matchTerms (RegExp.source EMAIL_REGEX) 0 s with
  | Some _ => true
  | None => false
  end.

(** The message [validateEmail] returns, read off a run in [env0]. *)
Definition emailVerdict (s : jsstring) : jsstring :=
  match valueOf (validateEmail s) env0 with
  | Some v => v
  | None => []
  end.

(** The value the [useMemo] factory returns, read off a run in [env0]. *)
Definition formValidity (e p : jsstring) : bool :=
  match valueOf (isFormValid_factory e p) env0 with
  | Some b => b
  | None => false
  end.

(** A memo cell holds nothing, or the factory's value for the
    dependencies stored with it. *)
Definition cellFresh (cell : MemoCell bool) : Prop :=
  match cell with
  | None => True
  | Some (v, [e; p]) => v = formValidity e p
  | Some _ => False
  end.

(** The view [App] returns for a state, handlers included. *)
Definition viewOf (st : State) : View :=
  mkView (email st) (emailError st) handleEmailChange
         (password st) (passwordError st) handlePasswordChange
         (handleSubmit (email st) (password st))
         (isSubmitted st) (formValidity (email st) (password st)).

(** A mounted component is coherent when its view is the one of its state
    and its memo cell is fresh. *)
Definition coherent (m : Mounted) : Prop :=
  view m = viewOf (hookState (inst m)) /\ cellFresh (memoCell (inst m)).

(** Whether [handleSubmit] takes its early return. *)
Definition rejected (e p : jsstring) : bool :=
  truthy (emailVerdict e) || truthy (validatePassword p).

(** The operation of the specification an event stands for. *)
Definition operation (ev : Event) (st : State) : M State :=
  match ev with
  | EmailChange v => onEmailChange v st
  | PasswordChange v => onPasswordChange v st
  | Submit => onSubmit st
  end.

(** The five operations of the component, with their input. *)
Inductive Op :=
| OpValidateEmail (s : jsstring)
| OpValidatePassword (s : jsstring)
| OpEmailChange (v : jsstring)
| OpPasswordChange (v : jsstring)
| OpSubmit.

(** Performing an operation on a state: the resulting state and the
    error text returned, if the operation returns one. *)
Definition perform (op : Op) (st : State) : M (State * option jsstring) :=
  match op with
  | OpValidateEmail s => t <- validateEmail s ;; ret (st, Some t)
  | OpValidatePassword s => ret (st, Some (validatePassword s))
  | OpEmailChange v => st' <- onEmailChange v st ;; ret (st', None)
  | OpPasswordChange v => st' <- onPasswordChange v st ;; ret (st', None)
  | OpSubmit => st' <- onSubmit st ;; ret (st', None)
  end.

(** The state a session from mount ends in, run in [env0]. *)
Definition stateAfter (evs : list Event) : option State :=
  valueOf (m <- session evs ;; ret (hookState (inst m))) env0.

(** How many submits a list of events holds. *)
Fixpoint submits (evs : list Event) : nat :=
  match evs with
  | [] => 0
  | Submit :: evs' => S (submits evs')
  | _ :: evs' => submits evs'
  end.

(** What [handleSubmit] writes to the console for a state. *)
Definition submitEntry (st : State) : ConsoleEntry :=
  if rejected (email st) (password st)
  then ConsoleError (lit "Submission failed due to invalid form data.")
  else ConsoleLog (lit "Form Submitted Successfully!") (email st) (password st).

(** The banner is up only over valid fields and empty stored errors. *)
Definition bannerSound (st : State) : Prop :=
  isSubmitted st = true ->
  emailVerdict (email st) = [] /\ validatePassword (password st) = []
  /\ emailError st = [] /\ passwordError st = [].

(** A stored error is empty or the validator's message for the field. *)
Definition errorsCurrent (st : State) : Prop :=
  (emailError st = [] \/ emailError st = emailVerdict (email st))
  /\ (passwordError st = [] \/ passwordError st = validatePassword (password st)).

(** Both stored errors are the validators' messages for the fields. *)
Definition errorsSynced (st : State) : Prop :=
  emailError st = emailVerdict (email st)
  /\ passwordError st = validatePassword (password st).

(* ================================================================== *)
(** ** The matcher against the language of a pattern *)
(* ================================================================== *)

Module RegExpFacts.
Import RegExp Lang.

Lemma matchTerms_plus_nil a ts pos :
  matchTerms (TAtom a OneOrMore :: ts) pos [] = None.
Proof. reflexivity. Qed.

Lemma matchTerms_plus_cons a ts pos c r :
  matchTerms (TAtom a OneOrMore :: ts) pos (c :: r) =
  if atomMatches a c then
    match matchTerms (TAtom a OneOrMore :: ts) (S pos) r with
    | Some e => Some e
    | None => matchTerms ts (S pos) r
    end
  else None.
Proof. reflexivity. Qed.

Lemma plus_step a ts pos c r :
  Accepts (TAtom a OneOrMore :: ts) pos (c :: r) <->
  atomMatches a c = true /\
  (Accepts (TAtom a OneOrMore :: ts) (S pos) r \/ Accepts ts (S pos) r).
Proof.
  split.
  - intros (w & r' & Heq & Hne & Hall & Hacc).
    destruct w as [|c' w']; [congruence|].
    simpl in Heq. injection Heq as <- ->.
    inversion Hall as [|? ? Hc Hw']; subst.
    split; [exact Hc|].
    destruct w' as [|d w''].
    + right. simpl in Hacc. now replace (S pos) with (pos + 1) by lia.
    + left. exists (d :: w''), r'. repeat split; try easy.
      now replace (S pos + List.length (d :: w''))
        with (pos + List.length (c :: d :: w'')) by (simpl; lia).
  - intros (Hc & [(w & r' & -> & Hne & Hall & Hacc) | Hacc]).
    + exists (c :: w), r'. repeat split; try easy.
      * now constructor.
      * now replace (pos + List.length (c :: w))
          with (S pos + List.length w) by (simpl; lia).
    + exists [c], r. repeat split; try easy.
      * now repeat constructor.
      * simpl. now replace (pos + 1) with (S pos) by lia.
Qed.

(** The backtracking matcher finds a match exactly when there is one. *)
Lemma matchTerms_Accepts ts :
  forall pos rest, matchTerms ts pos rest <> None <-> Accepts ts pos rest.
Proof.
  induction ts as [|t ts IH]; intros pos rest.
  - simpl. split; [trivial | discriminate].
  - destruct t as [ | | a [|]].
    + simpl. destruct (Nat.eqb_spec pos 0) as [->|Hne].
      * rewrite IH. tauto.
      * split; [congruence | intros [? _]; contradiction].
    + simpl. destruct rest as [|c r].
      * rewrite IH. tauto.
      * split; [congruence | intros [? _]; discriminate].
    + simpl. destruct rest as [|c r].
      * split; [congruence | intros (? & ? & ? & _); discriminate].
      * destruct (atomMatches a c) eqn:Hc.
        -- rewrite IH. split.
           ++ intros H. now exists c, r.
           ++ intros (c' & r' & Heq & _ & H). now injection Heq as -> ->.
        -- split; [congruence|].
           intros (c' & r' & Heq & Hc' & _). injection Heq as -> ->. congruence.
    + revert pos. induction rest as [|c r IHr]; intros pos.
      * rewrite matchTerms_plus_nil. split; [congruence|].
        intros (w & r' & Heq & Hne & _).
        symmetry in Heq. apply app_eq_nil in Heq. tauto.
      * rewrite matchTerms_plus_cons, plus_step.
        destruct (atomMatches a c).
        -- rewrite <- IHr, <- IH.
           destruct (matchTerms (TAtom a OneOrMore :: ts) (S pos) r).
           ++ split; [intros _; split; [reflexivity | left; discriminate]
                     | discriminate].
           ++ split; [intros H; split; [reflexivity | now right] |].
              intros [_ [H | H]]; [congruence | exact H].
        -- split; [congruence | intros [? _]; discriminate].
Qed.

(** A pattern that opens with [^] matches at index 0 or nowhere. *)
Lemma scan_anchored ts stickyFlag rest :
  forall i, scan (AssertStart :: ts) stickyFlag (S i) rest = None.
Proof.
  induction rest as [|c r IH]; intros i; simpl.
  - now destruct stickyFlag.
  - destruct stickyFlag; [reflexivity | apply IH].
Qed.

Lemma scan_from_start ts stickyFlag s :
  scan (AssertStart :: ts) stickyFlag 0 s = matchTerms (AssertStart :: ts) 0 s.
Proof.
  destruct s as [|c r]; simpl.
  - destruct (matchTerms ts 0 []); [reflexivity | now destruct stickyFlag].
  - destruct (matchTerms ts 0 (c :: r)); [reflexivity|].
    destruct stickyFlag; [reflexivity | apply scan_anchored].
Qed.

End RegExpFacts.

(* ================================================================== *)
(** ** Strings *)
(* ================================================================== *)

Lemma strictEq_eq a : forall b, strictEq a b = true <-> a = b.
Proof.
  induction a as [|x a IH]; intros [|y b]; simpl; try (split; congruence).
  rewrite andb_true_iff, N.eqb_eq, IH. split.
  - now intros [-> ->].
  - intros H. now injection H.
Qed.

Lemma strictEq_nil s : strictEq s [] = true <-> s = [].
Proof. apply strictEq_eq. Qed.

Lemma truthy_false s : truthy s = false <-> s = [].
Proof. destruct s; simpl; split; congruence. Qed.

Lemma truthy_jsOr a b : truthy (jsOr a b) = truthy a || truthy b.
Proof. unfold jsOr. destruct a; reflexivity. Qed.

Lemma depsEqual_pair e p e' p' :
  depsEqual [e; p] [e'; p'] = true <-> e = e' /\ p = p'.
Proof.
  simpl. rewrite !andb_true_iff, !strictEq_eq. tauto.
Qed.

(* ================================================================== *)
(** ** [EMAIL_REGEX] *)
(* ================================================================== *)

Section EmailRegex.
Import RegExp Lang RegExpFacts Shape.

(** Without the g and y flags the built-in starts at 0 whatever
    [lastIndex] holds, and leaves [lastIndex] alone. *)
Lemma builtinExec_EMAIL_REGEX li s :
  builtinExec EMAIL_REGEX li s = (matchTerms (source EMAIL_REGEX) 0 s, li).
Proof.
  unfold builtinExec. cbn [EMAIL_REGEX global sticky source orb skipn Nat.ltb Nat.leb].
  rewrite scan_from_start.
  now destruct (matchTerms _ 0 s).
Qed.

Lemma EMAIL_REGEX_test_run s w :
  EMAIL_REGEX_test s w = (Normal (emailMatch s), w).
Proof.
  unfold EMAIL_REGEX_test, emailMatch.
  rewrite builtinExec_EMAIL_REGEX. now destruct w.
Qed.

Lemma class_S_run w :
  Forall (fun c => atomMatches ClassEscape_S c = true) w <->
  Forall nonWhitespace w.
Proof.
  split; apply Forall_impl; intros c; unfold nonWhitespace; simpl;
    rewrite negb_true_iff; trivial.
Qed.

(** The pattern accepts exactly the strings of the shape the
    specification describes. *)
Lemma emailMatch_shape s : emailMatch s = true <-> emailShape s.
Proof.
  assert (emailMatch s = true <->
          matchTerms (source EMAIL_REGEX) 0 s <> None) as ->.
  { unfold emailMatch. destruct (matchTerms _ 0 s); split; congruence. }
  rewrite matchTerms_Accepts.
  unfold emailShape, nonWhitespaceRun. cbn [EMAIL_REGEX source Accepts].
  split.
  - intros (_ & a & r1 & -> & Ha & Fa & at_ & r2 & -> & Hat
              & b & r3 & -> & Hb & Fb & dot & r4 & -> & Hdot
              & c & r5 & -> & Hc & Fc & -> & _).
    simpl in Hat, Hdot. apply N.eqb_eq in Hat, Hdot. subst at_ dot.
    rewrite class_S_run in Fa, Fb, Fc.
    exists a, b, c. rewrite app_nil_r. auto 8.
  - intros (a & b & c & -> & (Ha & Fa) & (Hb & Fb) & (Hc & Fc)).
    rewrite <- class_S_run in Fa, Fb, Fc.
    split; [reflexivity|].
    exists a, (cu "@" :: b ++ cu "." :: c). repeat split; trivial.
    exists (cu "@"), (b ++ cu "." :: c). repeat split; trivial.
    exists b, (cu "." :: c). repeat split; trivial.
    exists (cu "."), c. repeat split; trivial.
    exists c, []. rewrite app_nil_r. repeat split; trivial.
Qed.

End EmailRegex.

(* ================================================================== *)
(** ** Running the monad *)
(* ================================================================== *)

Lemma bind_Normal {A B} (m : M A) (k : A -> M B) w a w' :
  m w = (Normal a, w') -> bind m k w = k a w'.
Proof. unfold bind. now intros ->. Qed.

Lemma valueOf_Normal {A} (m : M A) w a w' :
  m w = (Normal a, w') -> valueOf m w = Some a.
Proof. unfold valueOf. now intros ->. Qed.

(** [validateEmail] completes normally, returns the same message in every
    environment and leaves the environment as it found it. *)
Lemma validateEmail_run s w :
  validateEmail s w = (Normal (emailVerdict s), w).
Proof.
  unfold emailVerdict, valueOf, validateEmail.
  destruct s as [|c r]; [reflexivity|].
  cbn [truthy negb]. unfold bind. rewrite !EMAIL_REGEX_test_run.
  now destruct (emailMatch (c :: r)).
Qed.

Lemma emailVerdict_cases s :
  emailVerdict s =
  match s with
  | [] => lit "Email is required."
  | _ :: _ =>
      if emailMatch s then []
      else lit "Please enter a valid email address (e.g., user@domain.com)."
  end.
Proof.
  unfold emailVerdict, valueOf, validateEmail.
  destruct s as [|c r]; [reflexivity|].
  cbn [truthy negb]. unfold bind. rewrite EMAIL_REGEX_test_run.
  now destruct (emailMatch (c :: r)).
Qed.

Lemma valueOf_validateEmail s w :
  valueOf (validateEmail s) w = Some (emailVerdict s).
Proof. exact (valueOf_Normal _ _ _ _ (validateEmail_run s w)). Qed.

Lemma emailVerdict_nil_iff s : emailVerdict s = [] <-> emailMatch s = true.
Proof.
  rewrite emailVerdict_cases. destruct s as [|c r].
  - split; [discriminate|]. intros H.
    apply emailMatch_shape in H.
    destruct H as (a & b & d & Heq & _). now destruct a.
  - destruct (emailMatch (c :: r)); split; trivial; discriminate.
Qed.

Lemma password_template :
  lit "Password must be at least " ++ Number_toString MIN_PASSWORD_LENGTH
    ++ lit " characters long."
  = lit "Password must be at least 6 characters long.".
Proof. reflexivity. Qed.

Lemma validatePassword_cases s :
  validatePassword s =
  match s with
  | [] => lit "Password is required."
  | _ :: _ =>
      if List.length s <? 6
      then lit "Password must be at least 6 characters long."
      else []
  end.
Proof.
  unfold validatePassword. destruct s as [|c r]; [reflexivity|].
  cbn [truthy negb]. rewrite password_template.
  unfold jslength, MIN_PASSWORD_LENGTH.
  destruct (N.ltb_spec (N.of_nat (List.length (c :: r))) 6);
    destruct (Nat.ltb_spec (List.length (c :: r)) 6); trivial; lia.
Qed.

Lemma validatePassword_nil_iff s :
  validatePassword s = [] <-> 6 <= List.length s.
Proof.
  rewrite validatePassword_cases. destruct s as [|c r].
  - simpl. split; [discriminate | lia].
  - destruct (Nat.ltb_spec (List.length (c :: r)) 6);
      split; trivial; try discriminate; lia.
Qed.

Ltac run_step :=
  first [ erewrite bind_Normal by apply validateEmail_run
        | erewrite bind_Normal by reflexivity ].

Lemma isFormValid_factory_run e p w :
  isFormValid_factory e p w = (Normal (formValidity e p), w).
Proof.
  unfold formValidity, valueOf, isFormValid_factory.
  repeat run_step.
  now destruct (strictEq (emailVerdict e) []).
Qed.

Lemma formValidity_true e p :
  formValidity e p = true <-> emailVerdict e = [] /\ validatePassword p = [].
Proof.
  unfold formValidity, valueOf, isFormValid_factory.
  run_step.
  destruct (strictEq (emailVerdict e) []) eqn:He; cbn [ret fst].
  - rewrite strictEq_nil in *. tauto.
  - split; [discriminate|]. intros [H _].
    apply strictEq_nil in H. congruence.
Qed.

(* ================================================================== *)
(** ** The handlers, run *)
(* ================================================================== *)

Lemma handleEmailChange_run e w :
  handleEmailChange e w =
  (Normal tt,
   mkEnv (mkState (target_value e) (password (queued w))
                  (emailVerdict (target_value e))
                  (passwordError (queued w)) false)
         (console w) (defaultPrevented w) (EMAIL_REGEX_lastIndex w)).
Proof. unfold handleEmailChange. repeat run_step. reflexivity. Qed.

Lemma handlePasswordChange_run e w :
  handlePasswordChange e w =
  (Normal tt,
   mkEnv (mkState (email (queued w)) (target_value e)
                  (emailError (queued w))
                  (validatePassword (target_value e)) false)
         (console w) (defaultPrevented w) (EMAIL_REGEX_lastIndex w)).
Proof. unfold handlePasswordChange. repeat run_step. reflexivity. Qed.

Lemma handleSubmit_run e p w :
  handleSubmit e p w =
  (Normal tt,
   mkEnv (mkState (email (queued w)) (password (queued w))
                  (emailVerdict e) (validatePassword p)
                  (negb (rejected e p)))
         ((if rejected e p
           then ConsoleError (lit "Submission failed due to invalid form data.")
           else ConsoleLog (lit "Form Submitted Successfully!") e p)
            :: console w)
         true (EMAIL_REGEX_lastIndex w)).
Proof.
  unfold handleSubmit, rejected. do 4 run_step.
  rewrite truthy_jsOr.
  destruct (truthy (emailVerdict e) || truthy (validatePassword p));
    repeat run_step; reflexivity.
Qed.

Lemma onEmailChange_run v st w :
  onEmailChange v st w =
  (Normal (mkState v (password st) (emailVerdict v) (passwordError st) false),
   mkEnv (mkState v (password st) (emailVerdict v) (passwordError st) false)
         (console w) false (EMAIL_REGEX_lastIndex w)).
Proof.
  unfold onEmailChange, runHandler. now rewrite handleEmailChange_run.
Qed.

Lemma onPasswordChange_run v st w :
  onPasswordChange v st w =
  (Normal (mkState (email st) v (emailError st) (validatePassword v) false),
   mkEnv (mkState (email st) v (emailError st) (validatePassword v) false)
         (console w) false (EMAIL_REGEX_lastIndex w)).
Proof.
  unfold onPasswordChange, runHandler. now rewrite handlePasswordChange_run.
Qed.

Lemma onSubmit_run st w :
  let st' := mkState (email st) (password st) (emailVerdict (email st))
                     (validatePassword (password st))
                     (negb (rejected (email st) (password st))) in
  onSubmit st w =
  (Normal st',
   mkEnv st'
         ((if rejected (email st) (password st)
           then ConsoleError (lit "Submission failed due to invalid form data.")
           else ConsoleLog (lit "Form Submitted Successfully!")
                           (email st) (password st))
            :: console w)
         true (EMAIL_REGEX_lastIndex w)).
Proof.
  unfold onSubmit, runHandler. now rewrite handleSubmit_run.
Qed.

Lemma rejected_false e p :
  rejected e p = false <-> emailVerdict e = [] /\ validatePassword p = [].
Proof.
  unfold rejected. rewrite orb_false_iff, !truthy_false. tauto.
Qed.

(* ================================================================== *)
(** ** The render cycle, run *)
(* ================================================================== *)

Lemma useMemo_run cell e p w :
  cellFresh cell ->
  exists cell',
    useMemo cell (isFormValid_factory e p) [e; p] w
      = (Normal (formValidity e p, cell'), w)
    /\ cellFresh cell'.
Proof.
  intros Hc. unfold useMemo.
  destruct cell as [[v deps]|].
  - destruct (depsEqual [e; p] deps) eqn:Hd.
    + exists (Some (v, deps)). split; [|exact Hc].
      destruct deps as [|e' [|p' [|x deps]]]; cbn [cellFresh] in Hc;
        try contradiction.
      apply depsEqual_pair in Hd. destruct Hd as [-> ->].
      now subst v.
    + exists (Some (formValidity e p, [e; p])).
      erewrite bind_Normal by apply isFormValid_factory_run.
      split; reflexivity.
  - exists (Some (formValidity e p, [e; p])).
    erewrite bind_Normal by apply isFormValid_factory_run.
    split; reflexivity.
Qed.

Lemma App_run i w :
  cellFresh (memoCell i) ->
  exists m, App i w = (Normal m, w)
            /\ hookState (inst m) = hookState i /\ coherent m.
Proof.
  intros Hc. unfold App.
  destruct (useMemo_run (memoCell i) (email (hookState i))
              (password (hookState i)) w Hc)
    as (cell' & Hrun & Hc').
  erewrite bind_Normal by exact Hrun.
  eexists. split; [reflexivity|]. split; [reflexivity|].
  split; [reflexivity | exact Hc'].
Qed.

Lemma operation_run ev st w :
  exists st' w', operation ev st w = (Normal st', w')
                 /\ forall w2, valueOf (operation ev st) w2 = Some st'.
Proof.
  destruct ev as [v|v|]; cbn [operation]; do 2 eexists.
  - rewrite onEmailChange_run. split; [reflexivity|]. intros w2.
    unfold valueOf. now rewrite onEmailChange_run.
  - rewrite onPasswordChange_run. split; [reflexivity|]. intros w2.
    unfold valueOf. now rewrite onPasswordChange_run.
  - rewrite onSubmit_run. split; [reflexivity|]. intros w2.
    unfold valueOf. now rewrite onSubmit_run.
Qed.

(** An event on a coherent component runs the operation it stands for on
    the component's state and renders a coherent component again. *)
Lemma step_run m ev w :
  coherent m ->
  exists m' w',
    step m ev w = (Normal m', w')
    /\ coherent m'
    /\ operation ev (hookState (inst m)) w = (Normal (hookState (inst m')), w').
Proof.
  intros [Hv Hc]. unfold step.
  assert (runHandler (hookState (inst m)) (fire (view m) ev)
          = operation ev (hookState (inst m))) as ->.
  { rewrite Hv. now destruct ev. }
  destruct (operation_run ev (hookState (inst m)) w) as (st' & w' & Hop & _).
  erewrite bind_Normal by exact Hop.
  destruct (App_run (mkInstance st' (memoCell (inst m))) w' Hc)
    as (m' & Hrun & Hst & Hco).
  exists m', w'. rewrite Hrun, Hop. cbn [hookState] in Hst.
  rewrite Hst. auto.
Qed.

Lemma mount_run w :
  exists m, mount w = (Normal m, w)
            /\ hookState (inst m) = initialState /\ coherent m.
Proof. apply (App_run (mkInstance initialState None) w). exact I. Qed.

Lemma run_run evs :
  forall m w, coherent m ->
    exists m' w', run evs m w = (Normal m', w') /\ coherent m'.
Proof.
  induction evs as [|ev evs IH]; intros m w Hm; cbn [run].
  - now exists m, w.
  - destruct (step_run m ev w Hm) as (m1 & w1 & Hstep & Hm1 & _).
    erewrite bind_Normal by exact Hstep.
    apply IH, Hm1.
Qed.

Lemma session_run evs w :
  exists m w', session evs w = (Normal m, w') /\ coherent m.
Proof.
  unfold session.
  destruct (mount_run w) as (m0 & Hmount & _ & Hm0).
  erewrite bind_Normal by exact Hmount.
  apply run_run, Hm0.
Qed.

(* ================================================================== *)
(** ** The validators *)
(* ================================================================== *)

(** C1. For every string [s] and whatever the environment,
    [validateEmail(s)] returns the empty string exactly when [s] is
    non-empty and is, as a whole, one or more non-whitespace characters,
    an [@], one or more non-whitespace characters, a dot and one or more
    non-whitespace characters. Otherwise it returns "Email is required."
    for the empty string and "Please enter a valid email address (e.g.,
    user@domain.com)." for a non-empty string of another shape. *)
Theorem validateEmail_spec (s : jsstring) (w : Env) :
  (valueOf (validateEmail s) w = Some [] <-> s <> [] /\ Shape.emailShape s)
  /\ (s = [] ->
      valueOf (validateEmail s) w = Some (lit "Email is required."))
  /\ (s <> [] -> ~ Shape.emailShape s ->
      valueOf (validateEmail s) w =
      Some (lit "Please enter a valid email address (e.g., user@domain.com).")).
Proof.
  rewrite valueOf_validateEmail. split; [split|split].
  - intros [= H]. apply emailVerdict_nil_iff in H. split.
    + intros ->. discriminate H.
    + now apply emailMatch_shape.
  - intros [_ H]. f_equal. now apply emailVerdict_nil_iff, emailMatch_shape.
  - now intros ->.
  - intros Hne Hshape. rewrite emailVerdict_cases.
    destruct s as [|c r]; [congruence|].
    destruct (emailMatch (c :: r)) eqn:Hm; [|reflexivity].
    now apply emailMatch_shape in Hm.
Qed.

(** C2. For every string [s], [validatePassword(s)] returns the empty
    string exactly when [s] has at least 6 code units; it returns
    "Password is required." for the empty string and "Password must be at
    least 6 characters long." for a non-empty string shorter than 6. *)
Theorem validatePassword_spec (s : jsstring) :
  (validatePassword s = [] <-> 6 <= List.length s)
  /\ (s = [] -> validatePassword s = lit "Password is required.")
  /\ (s <> [] -> List.length s < 6 ->
      validatePassword s = lit "Password must be at least 6 characters long.").
Proof.
  split; [apply validatePassword_nil_iff|]. split.
  - now intros ->.
  - intros Hne Hlt. rewrite validatePassword_cases.
    destruct s as [|c r]; [congruence|].
    destruct (Nat.ltb_spec (List.length (c :: r)) 6); [reflexivity | lia].
Qed.

(* ================================================================== *)
(** ** Submitting *)
(* ================================================================== *)

(** C3. From every state whose email and password both validate to the
    empty string, [onSubmit] completes normally (nothing is thrown), sets
    [isSubmitted] to true and ends with both stored errors empty. *)
Theorem onSubmit_valid (st : State) (w : Env) :
  valueOf (validateEmail (email st)) w = Some [] ->
  validatePassword (password st) = [] ->
  exists st' w',
    onSubmit st w = (Normal st', w')
    /\ isSubmitted st' = true
    /\ emailError st' = []
    /\ passwordError st' = [].
Proof.
  intros He Hp. rewrite valueOf_validateEmail in He.
  injection He as Hv.
  do 2 eexists. split; [apply onSubmit_run|].
  cbn [isSubmitted emailError passwordError].
  assert (rejected (email st) (password st) = false) as ->
    by now apply rejected_false.
  rewrite Hv, Hp. auto.
Qed.

(** Scenario 4 of the specification, started with a stale email error. *)
Lemma onSubmit_valid_witness :
  let st := mkState (lit "user@domain.com") (lit "abcdef")
                    (lit "Email is required.") [] false in
  valueOf (validateEmail (email st)) env0 = Some []
  /\ validatePassword (password st) = []
  /\ exists st' w',
       onSubmit st env0 = (Normal st', w')
       /\ isSubmitted st' = true
       /\ emailError st' = []
       /\ passwordError st' = [].
Proof.
  intros st.
  split; [reflexivity|]. split; [reflexivity|].
  apply (onSubmit_valid st env0); reflexivity.
Defined.

(** C4. From every state in which a validator returns a non-empty
    message, [onSubmit] completes normally, leaves [isSubmitted] false and
    stores in each error field exactly the message of its validator. With
    email "bad" and password "secret1" the state after the submit has the
    format message as email error, no password error and [isSubmitted]
    false; with both fields empty it has the two "required" messages. *)
Theorem onSubmit_invalid :
  (forall (st : State) (w : Env),
      (exists msg, valueOf (validateEmail (email st)) w = Some msg
                   /\ msg <> [])
      \/ validatePassword (password st) <> [] ->
      exists st' w',
        onSubmit st w = (Normal st', w')
        /\ isSubmitted st' = false
        /\ valueOf (validateEmail (email st)) w = Some (emailError st')
        /\ passwordError st' = validatePassword (password st))
  /\ (forall (ee pe : jsstring) (sub : bool) (w : Env),
        valueOf (onSubmit (mkState (lit "bad") (lit "secret1") ee pe sub)) w
        = Some (mkState (lit "bad") (lit "secret1")
                  (lit "Please enter a valid email address (e.g., user@domain.com).")
                  [] false))
  /\ (forall (ee pe : jsstring) (sub : bool) (w : Env),
        valueOf (onSubmit (mkState [] [] ee pe sub)) w
        = Some (mkState [] [] (lit "Email is required.")
                        (lit "Password is required.") false)).
Proof.
  split; [|split].
  - intros st w H.
    do 2 eexists. split; [apply onSubmit_run|].
    cbn [isSubmitted emailError passwordError].
    rewrite valueOf_validateEmail in *.
    repeat split; trivial.
    apply negb_false_iff. unfold rejected. apply orb_true_iff.
    destruct H as [(msg & Hmsg & Hne) | Hne].
    + left. injection Hmsg as <-. now destruct (emailVerdict (email st)).
    + right. now destruct (validatePassword (password st)).
  - intros. unfold valueOf. rewrite onSubmit_run. reflexivity.
  - intros. unfold valueOf. rewrite onSubmit_run. reflexivity.
Qed.

(** Scenario 3 of the specification: a password of three characters. *)
Lemma onSubmit_invalid_witness :
  let st := mkState (lit "user@domain.com") (lit "abc") [] [] true in
  validatePassword (password st) <> []
  /\ exists st' w',
       onSubmit st env0 = (Normal st', w')
       /\ isSubmitted st' = false
       /\ valueOf (validateEmail (email st)) env0 = Some (emailError st')
       /\ passwordError st' = validatePassword (password st).
Proof.
  intros st.
  assert (validatePassword (password st) <> []) as H by discriminate.
  split; [exact H|].
  apply (proj1 onSubmit_invalid st env0). right. exact H.
Defined.

(** C5. After every call of [onSubmit], accepted or not, the stored errors
    are the validators' messages for the current fields, whatever errors
    were stored before. *)
Theorem onSubmit_recomputes_errors (st : State) (w : Env) :
  exists st' w',
    onSubmit st w = (Normal st', w')
    /\ valueOf (validateEmail (email st')) w' = Some (emailError st')
    /\ passwordError st' = validatePassword (password st').
Proof.
  do 2 eexists. split; [apply onSubmit_run|].
  rewrite valueOf_validateEmail. split; reflexivity.
Qed.

(* ================================================================== *)
(** ** Editing a field *)
(* ================================================================== *)

(** C6. From every state and for every new value [v], [onEmailChange(v)]
    ends with [email = v], [emailError] the message of [validateEmail(v)]
    and [isSubmitted] false, and [onPasswordChange(v)] does the same on
    the password side. In particular an edit made while [isSubmitted] is
    true resets it, also when the new value is the field's current one. *)
Theorem onChange_spec (st : State) (v : jsstring) (w : Env) :
  (exists st' w',
      onEmailChange v st w = (Normal st', w')
      /\ email st' = v
      /\ valueOf (validateEmail v) w' = Some (emailError st')
      /\ isSubmitted st' = false)
  /\ (exists st' w',
        onPasswordChange v st w = (Normal st', w')
        /\ password st' = v
        /\ passwordError st' = validatePassword v
        /\ isSubmitted st' = false)
  /\ (isSubmitted st = true ->
      (exists st', valueOf (onEmailChange (email st) st) w = Some st'
                   /\ email st' = email st /\ isSubmitted st' = false)
      /\ (exists st', valueOf (onPasswordChange (password st) st) w = Some st'
                      /\ password st' = password st
                      /\ isSubmitted st' = false)).
Proof.
  split; [|split].
  - do 2 eexists. split; [apply onEmailChange_run|].
    rewrite valueOf_validateEmail. auto.
  - do 2 eexists. split; [apply onPasswordChange_run|]. auto.
  - intros _. unfold valueOf.
    rewrite onEmailChange_run, onPasswordChange_run.
    split; eexists; (split; [reflexivity|]); auto.
Qed.

(* ================================================================== *)
(** ** The derived validity flag *)
(* ================================================================== *)

(** C7. After mounting and any sequence of edits and submits the
    component has rendered without throwing, and the [isFormValid] of
    that render is true exactly when both validators return the empty
    string on the current email and password. The flag is no state slot:
    it is the value of the [useMemo] factory, which for every pair of
    fields returns true exactly in that case. *)
Theorem isFormValid_spec :
  (forall (evs : list Event) (w : Env),
      exists m w',
        session evs w = (Normal m, w')
        /\ (isFormValid (view m) = true <->
            valueOf (validateEmail (email (hookState (inst m)))) w' = Some []
            /\ validatePassword (password (hookState (inst m))) = []))
  /\ (forall (e p : jsstring) (w : Env),
        valueOf (isFormValid_factory e p) w = Some true <->
        valueOf (validateEmail e) w = Some []
        /\ validatePassword p = []).
Proof.
  split.
  - intros evs w.
    destruct (session_run evs w) as (m & w' & Hrun & Hview & _).
    exists m, w'. split; [exact Hrun|].
    rewrite Hview, valueOf_validateEmail. cbn [viewOf isFormValid].
    rewrite formValidity_true.
    split; [intros [-> Hp] | intros [[= He] Hp]]; now split.
  - intros e p w. unfold valueOf at 1.
    rewrite isFormValid_factory_run, valueOf_validateEmail. cbn [fst].
    split.
    + intros [= H]. apply formValidity_true in H.
      destruct H as [-> Hp]. now split.
    + intros [[= He] Hp]. f_equal. apply formValidity_true. now split.
Qed.

(* ================================================================== *)
(** ** Determinism *)
(* ================================================================== *)

(** C8. Every operation is deterministic: performed twice on the same
    state with the same input, in any two environments (whatever the
    console holds, whatever [lastIndex] the shared regex object carries,
    whatever was queued before), it completes normally both times with
    the same resulting state and the same returned error text. *)
Theorem operations_deterministic (op : Op) (st : State) (w1 w2 : Env) :
  exists r,
    valueOf (perform op st) w1 = Some r
    /\ valueOf (perform op st) w2 = Some r.
Proof.
  unfold valueOf.
  destruct op as [s|s|v|v|]; cbn [perform]; eexists.
  - erewrite !bind_Normal by apply validateEmail_run. split; reflexivity.
  - split; reflexivity.
  - erewrite !bind_Normal by apply onEmailChange_run. split; reflexivity.
  - erewrite !bind_Normal by apply onPasswordChange_run. split; reflexivity.
  - erewrite !bind_Normal by apply onSubmit_run. split; reflexivity.
Qed.

(** What the absence of the g flag buys: the same pattern with the flag
    set answers differently on the same input as [lastIndex] varies. *)
Lemma global_flag_breaks_determinism :
  let R := RegExp.mk (RegExp.source EMAIL_REGEX) true false in
  fst (RegExp.builtinExec R 0 (lit "a@b.c")) = Some 5
  /\ fst (RegExp.builtinExec R 5 (lit "a@b.c")) = None.
Proof. split; reflexivity. Qed.

(* ================================================================== *)
(** ** Mounting *)
(* ================================================================== *)

(** C9. Mounting renders without throwing a component whose five state
    slots are the empty string (four times) and false; that render has
    [isFormValid] false and shows no error for either field. So at mount
    [emailError] is not the message of [validateEmail(email)]; it becomes
    so with the first email edit or the first submit. *)
Theorem mount_spec (w : Env) :
  exists m w',
    mount w = (Normal m, w')
    /\ hookState (inst m) = mkState [] [] [] [] false
    /\ isFormValid (view m) = false
    /\ emailErrorShown (view m) = []
    /\ passwordErrorShown (view m) = []
    /\ valueOf (validateEmail (email (hookState (inst m)))) w'
       <> Some (emailError (hookState (inst m)))
    /\ (forall ev,
          ev = Submit \/ (exists v, ev = EmailChange v) ->
          exists m1 w1,
            step m ev w' = (Normal m1, w1)
            /\ valueOf (validateEmail (email (hookState (inst m1)))) w1
               = Some (emailError (hookState (inst m1)))).
Proof.
  destruct (mount_run w) as (m & Hmount & Hst & Hco).
  exists m, w. split; [exact Hmount|].
  destruct Hco as [Hview Hcell].
  rewrite Hview, Hst. cbn [viewOf isFormValid emailErrorShown passwordErrorShown].
  repeat split.
  - rewrite valueOf_validateEmail. discriminate.
  - intros ev Hev.
    destruct (step_run m ev w (conj Hview Hcell)) as (m1 & w1 & Hstep & _ & Hop).
    exists m1, w1. split; [exact Hstep|].
    rewrite valueOf_validateEmail. f_equal.
    destruct Hev as [-> | [v ->]]; cbn [operation] in Hop.
    + rewrite onSubmit_run in Hop. now injection Hop as <- _.
    + rewrite onEmailChange_run in Hop. now injection Hop as <- _.
Qed.

(** A password edit as first event leaves the email side as mounted:
    still no stored email error for the empty email. *)
Lemma mount_then_password_edit (v : jsstring) (w : Env) :
  exists m w',
    session [PasswordChange v] w = (Normal m, w')
    /\ valueOf (validateEmail (email (hookState (inst m)))) w'
       <> Some (emailError (hookState (inst m))).
Proof.
  unfold session.
  destruct (mount_run w) as (m0 & Hmount & Hst & Hco).
  erewrite bind_Normal by exact Hmount. cbn [run].
  destruct (step_run m0 (PasswordChange v) w Hco) as (m1 & w1 & Hstep & _ & Hop).
  erewrite bind_Normal by exact Hstep.
  exists m1, w1. split; [reflexivity|].
  cbn [operation] in Hop. rewrite onPasswordChange_run, Hst in Hop.
  injection Hop as <- _.
  rewrite valueOf_validateEmail. discriminate.
Qed.

(* ================================================================== *)
(** ** Frame *)
(* ================================================================== *)

(** C10. [onSubmit] never changes [email] or [password];
    [onEmailChange] never changes [password] or [passwordError];
    [onPasswordChange] never changes [email] or [emailError]. *)
Theorem handlers_frame (st : State) (v : jsstring) (w : Env) :
  (exists st' w',
      onSubmit st w = (Normal st', w')
      /\ email st' = email st /\ password st' = password st)
  /\ (exists st' w',
        onEmailChange v st w = (Normal st', w')
        /\ password st' = password st
        /\ passwordError st' = passwordError st)
  /\ (exists st' w',
        onPasswordChange v st w = (Normal st', w')
        /\ email st' = email st
        /\ emailError st' = emailError st).
Proof.
  split; [|split]; do 2 eexists.
  - split; [apply onSubmit_run|]. split; reflexivity.
  - split; [apply onEmailChange_run|]. split; reflexivity.
  - split; [apply onPasswordChange_run|]. split; reflexivity.
Qed.

(* ================================================================== *)
(** ** The scenarios of the specification, run from mount *)
(* ================================================================== *)

Example scenario_1 :
  stateAfter [Submit]
  = Some (mkState [] [] (lit "Email is required.")
                  (lit "Password is required.") false).
Proof. reflexivity. Qed.

Example scenario_2 :
  stateAfter [EmailChange (lit "bad"); PasswordChange (lit "secret1"); Submit]
  = Some (mkState (lit "bad") (lit "secret1")
            (lit "Please enter a valid email address (e.g., user@domain.com).")
            [] false).
Proof. reflexivity. Qed.

Example scenario_3 :
  stateAfter [EmailChange (lit "user@domain.com"); PasswordChange (lit "abc");
              Submit]
  = Some (mkState (lit "user@domain.com") (lit "abc") []
            (lit "Password must be at least 6 characters long.") false).
Proof. reflexivity. Qed.

Example scenario_4 :
  stateAfter [EmailChange (lit "user@domain.com");
              PasswordChange (lit "abcdef"); Submit]
  = Some (mkState (lit "user@domain.com") (lit "abcdef") [] [] true).
Proof. reflexivity. Qed.

Example scenario_5 :
  stateAfter [EmailChange (lit "user@domain.com");
              PasswordChange (lit "abcdef"); Submit;
              EmailChange (lit "user@domain.com")]
  = Some (mkState (lit "user@domain.com") (lit "abcdef") [] [] false).
Proof. reflexivity. Qed.

(* ================================================================== *)
(** ** Effects of the validators and handlers on the environment *)
(* ================================================================== *)

(** X1. [validateEmail] has no side effect: it completes normally and
    leaves the whole environment as it found it, the [lastIndex] of the
    shared [EMAIL_REGEX] object included. *)
Theorem validateEmail_pure (s : jsstring) (w : Env) :
  exists msg, validateEmail s w = (Normal msg, w).
Proof. exists (emailVerdict s). apply validateEmail_run. Qed.

(** X2. [handleSubmit] always calls [preventDefault] and writes exactly
    one console entry on top of what was there: the success log carrying
    the email and the password of the state, in clear, when the submit is
    accepted, the failure error otherwise. It leaves [lastIndex] alone. *)
Theorem onSubmit_effects (st : State) (w : Env) :
  exists st' w',
    onSubmit st w = (Normal st', w')
    /\ defaultPrevented w' = true
    /\ EMAIL_REGEX_lastIndex w' = EMAIL_REGEX_lastIndex w
    /\ console w' =
       (if isSubmitted st'
        then ConsoleLog (lit "Form Submitted Successfully!")
                        (email st) (password st)
        else ConsoleError (lit "Submission failed due to invalid form data."))
         :: console w.
Proof.
  do 2 eexists. split; [apply onSubmit_run|].
  cbn [defaultPrevented EMAIL_REGEX_lastIndex console isSubmitted].
  repeat split. now destruct (rejected (email st) (password st)).
Qed.

(* ================================================================== *)
(** ** Invariants of a session *)
(* ================================================================== *)

Lemma operation_cases ev st w st' w' :
  operation ev st w = (Normal st', w') ->
  st' = match ev with
        | EmailChange v =>
            mkState v (password st) (emailVerdict v) (passwordError st) false
        | PasswordChange v =>
            mkState (email st) v (emailError st) (validatePassword v) false
        | Submit =>
            mkState (email st) (password st) (emailVerdict (email st))
                    (validatePassword (password st))
                    (negb (rejected (email st) (password st)))
        end
  /\ console w' = match ev with
                  | Submit => submitEntry st :: console w
                  | _ => console w
                  end
  /\ EMAIL_REGEX_lastIndex w' = EMAIL_REGEX_lastIndex w.
Proof.
  destruct ev as [v|v|]; cbn [operation].
  - rewrite onEmailChange_run. intros [= <- <-]. auto.
  - rewrite onPasswordChange_run. intros [= <- <-]. auto.
  - rewrite onSubmit_run. intros [= <- <-]. auto.
Qed.

Lemma bannerSound_kept ev st w st' w' :
  operation ev st w = (Normal st', w') -> bannerSound st'.
Proof.
  intros H. apply operation_cases in H. destruct H as (-> & _).
  unfold bannerSound.
  destruct ev as [v|v|]; cbn [isSubmitted]; try discriminate.
  rewrite negb_true_iff, rejected_false.
  cbn [email password emailError passwordError]. tauto.
Qed.

Lemma errorsCurrent_kept ev st w st' w' :
  errorsCurrent st ->
  operation ev st w = (Normal st', w') -> errorsCurrent st'.
Proof.
  intros [He Hp] H. apply operation_cases in H. destruct H as (-> & _).
  unfold errorsCurrent.
  destruct ev as [v|v|]; cbn [email password emailError passwordError]; auto.
Qed.

Lemma errorsSynced_kept ev st w st' w' :
  errorsSynced st ->
  operation ev st w = (Normal st', w') -> errorsSynced st'.
Proof.
  intros [He Hp] H. apply operation_cases in H. destruct H as (-> & _).
  unfold errorsSynced.
  destruct ev as [v|v|]; cbn [email password emailError passwordError]; auto.
Qed.

(** A property of the state kept by every operation holds along a run;
    the console grows by one entry per submit. *)
Lemma run_track (P : State -> Prop) :
  (forall ev st w st' w',
      P st -> operation ev st w = (Normal st', w') -> P st') ->
  forall evs m w,
    coherent m -> P (hookState (inst m)) ->
    exists m' w',
      run evs m w = (Normal m', w')
      /\ coherent m'
      /\ P (hookState (inst m'))
      /\ List.length (console w') = submits evs + List.length (console w)
      /\ EMAIL_REGEX_lastIndex w' = EMAIL_REGEX_lastIndex w.
Proof.
  intros Hkept.
  induction evs as [|ev evs IH]; intros m w Hm HP; cbn [run].
  - exists m, w. auto.
  - destruct (step_run m ev w Hm) as (m1 & w1 & Hstep & Hm1 & Hop).
    erewrite bind_Normal by exact Hstep.
    destruct (IH m1 w1 Hm1 (Hkept _ _ _ _ _ HP Hop))
      as (m' & w' & Hrun & Hm' & HP' & Hlen & Hli).
    exists m', w'. repeat split; trivial; try apply Hm'.
    + apply operation_cases in Hop. destruct Hop as (_ & Hc & _).
      rewrite Hlen.
      destruct ev; cbn [submits]; rewrite Hc; cbn [List.length]; lia.
    + apply operation_cases in Hop. destruct Hop as (_ & _ & Hl). congruence.
Qed.

Lemma session_track (P : State -> Prop) :
  P initialState ->
  (forall ev st w st' w',
      P st -> operation ev st w = (Normal st', w') -> P st') ->
  forall evs w,
    exists m w',
      session evs w = (Normal m, w')
      /\ coherent m
      /\ P (hookState (inst m))
      /\ List.length (console w') = submits evs + List.length (console w)
      /\ EMAIL_REGEX_lastIndex w' = EMAIL_REGEX_lastIndex w.
Proof.
  intros H0 Hkept evs w. unfold session.
  destruct (mount_run w) as (m0 & Hmount & Hst & Hm0).
  erewrite bind_Normal by exact Hmount.
  apply run_track; trivial. now rewrite Hst.
Qed.

Lemma run_app evs1 :
  forall evs2 m w m1 w1,
    run evs1 m w = (Normal m1, w1) ->
    run (evs1 ++ evs2) m w = run evs2 m1 w1.
Proof.
  induction evs1 as [|ev evs1 IH]; intros evs2 m w m1 w1; cbn [run app].
  - now intros [= -> ->].
  - unfold bind. destruct (step m ev w) as [[m'|r] w'].
    + apply IH.
    + discriminate.
Qed.

Lemma coherent_view m : coherent m -> view m = viewOf (hookState (inst m)).
Proof. now intros [H _]. Qed.

(** X3. Along any session from mount the console receives exactly one
    entry per submit event and none for an edit or a render, and the
    [lastIndex] of the shared regex object never moves. *)
Theorem session_console (evs : list Event) (w : Env) :
  exists m w',
    session evs w = (Normal m, w')
    /\ List.length (console w') = submits evs + List.length (console w)
    /\ EMAIL_REGEX_lastIndex w' = EMAIL_REGEX_lastIndex w.
Proof.
  destruct (session_track (fun _ => True) I (fun _ _ _ _ _ _ _ => I) evs w)
    as (m & w' & Hrun & _ & _ & Hlen & Hli).
  now exists m, w'.
Qed.

(** X4. In every render reached from mount, the success banner is shown
    only when the form is valid and neither field shows an error. *)
Theorem banner_only_when_valid (evs : list Event) (w : Env) :
  exists m w',
    session evs w = (Normal m, w')
    /\ (bannerShown (view m) = true ->
        isFormValid (view m) = true
        /\ emailErrorShown (view m) = []
        /\ passwordErrorShown (view m) = []).
Proof.
  destruct (session_track bannerSound) with (evs := evs) (w := w)
    as (m & w' & Hrun & Hm & HP & _).
  - discriminate.
  - intros ev st w0 st' w1 _. apply bannerSound_kept.
  - exists m, w'. split; [exact Hrun|].
    rewrite (coherent_view m Hm).
    cbn [viewOf bannerShown isFormValid emailErrorShown passwordErrorShown].
    intros Hsub. destruct (HP Hsub) as (He & Hp & Hee & Hpe).
    rewrite formValidity_true. auto.
Qed.

(** X5. In every render reached from mount, the error shown under a field
    is never stale: it is empty, or it is the message the validator
    returns for the value the field shows. *)
Theorem shown_errors_current (evs : list Event) (w : Env) :
  exists m w',
    session evs w = (Normal m, w')
    /\ (emailErrorShown (view m) = []
        \/ valueOf (validateEmail (emailValue (view m))) w'
           = Some (emailErrorShown (view m)))
    /\ (passwordErrorShown (view m) = []
        \/ passwordErrorShown (view m)
           = validatePassword (passwordValue (view m))).
Proof.
  destruct (session_track errorsCurrent) with (evs := evs) (w := w)
    as (m & w' & Hrun & Hm & [He Hp] & _).
  - split; now left.
  - intros ev st w0 st' w1. apply errorsCurrent_kept.
  - exists m, w'. split; [exact Hrun|].
    rewrite (coherent_view m Hm), valueOf_validateEmail.
    cbn [viewOf emailErrorShown passwordErrorShown emailValue passwordValue].
    split; [|exact Hp].
    destruct He as [He|He]; [now left | right; now rewrite <- He].
Qed.

(** X6. Once a submit has happened in a session, whatever came before
    and whatever follows, both shown errors are exactly the validators'
    messages for the values shown. *)
Theorem errors_synced_after_submit (evs1 evs2 : list Event) (w : Env) :
  exists m w',
    session (evs1 ++ Submit :: evs2) w = (Normal m, w')
    /\ valueOf (validateEmail (emailValue (view m))) w'
       = Some (emailErrorShown (view m))
    /\ passwordErrorShown (view m) = validatePassword (passwordValue (view m)).
Proof.
  unfold session.
  destruct (mount_run w) as (m0 & Hmount & _ & Hm0).
  erewrite bind_Normal by exact Hmount.
  destruct (run_run evs1 m0 w Hm0) as (m1 & w1 & Hrun1 & Hm1).
  rewrite (run_app evs1 (Submit :: evs2) m0 w m1 w1 Hrun1). cbn [run].
  destruct (step_run m1 Submit w1 Hm1) as (m2 & w2 & Hstep & Hm2 & Hop).
  erewrite bind_Normal by exact Hstep.
  destruct (run_track errorsSynced errorsSynced_kept evs2 m2 w2 Hm2)
    as (m & w' & Hrun & Hm & [He Hp] & _).
  { apply operation_cases in Hop. destruct Hop as (-> & _). split; reflexivity. }
  exists m, w'. split; [exact Hrun|].
  rewrite (coherent_view m Hm), valueOf_validateEmail.
  cbn [viewOf emailErrorShown passwordErrorShown emailValue passwordValue].
  split; [now rewrite He | exact Hp].
Qed.

(** X7. A submit is accepted exactly when the button of the render it
    comes from is enabled: after a submit on any render reached from
    mount, [isSubmitted] and the banner equal the [isFormValid] of that
    render, and the next render has the same [isFormValid]. *)
Theorem submit_accepted_iff_enabled (evs : list Event) (w : Env) :
  exists m w' m1 w1,
    session evs w = (Normal m, w')
    /\ step m Submit w' = (Normal m1, w1)
    /\ isSubmitted (hookState (inst m1)) = isFormValid (view m)
    /\ bannerShown (view m1) = isFormValid (view m)
    /\ isFormValid (view m1) = isFormValid (view m).
Proof.
  destruct (session_run evs w) as (m & w' & Hrun & Hm).
  destruct (step_run m Submit w' Hm) as (m1 & w1 & Hstep & Hm1 & Hop).
  exists m, w', m1, w1. split; [exact Hrun|]. split; [exact Hstep|].
  apply operation_cases in Hop. destruct Hop as (Hst & _).
  rewrite (coherent_view m Hm), (coherent_view m1 Hm1), Hst.
  cbn [viewOf bannerShown isFormValid isSubmitted email password].
  assert (negb (rejected (email (hookState (inst m)))
                         (password (hookState (inst m))))
          = formValidity (email (hookState (inst m)))
                         (password (hookState (inst m)))) as ->; [|auto].
  destruct (formValidity _ _) eqn:Hv.
  - apply negb_true_iff, rejected_false. now apply formValidity_true.
  - apply negb_false_iff. apply not_false_iff_true. intros Hr.
    apply rejected_false, formValidity_true in Hr. congruence.
Qed.

(* ================================================================== *)
(** ** How the operations compose *)
(* ================================================================== *)

(** X8. Filling both fields and submitting forgets the past: from any two
    starting states and in either order of the two edits, the state after
    the submit is the same, made of the two values typed, the validators'
    messages for them, and [isSubmitted] true exactly when both messages
    are empty. *)
Theorem fill_and_submit (st1 st2 : State) (e p : jsstring) (w1 w2 : Env) :
  exists ve r,
    valueOf (validateEmail e) w1 = Some ve
    /\ valueOf (s <- onEmailChange e st1 ;;
                s' <- onPasswordChange p s ;; onSubmit s') w1 = Some r
    /\ valueOf (s <- onPasswordChange p st2 ;;
                s' <- onEmailChange e s ;; onSubmit s') w2 = Some r
    /\ email r = e /\ password r = p
    /\ emailError r = ve /\ passwordError r = validatePassword p
    /\ (isSubmitted r = true <-> ve = [] /\ validatePassword p = []).
Proof.
  exists (emailVerdict e).
  exists (mkState e p (emailVerdict e) (validatePassword p)
                  (negb (rejected e p))).
  split; [apply valueOf_validateEmail|].
  unfold valueOf.
  split; [|split].
  - erewrite bind_Normal by apply onEmailChange_run.
    erewrite bind_Normal by apply onPasswordChange_run.
    rewrite onSubmit_run. reflexivity.
  - erewrite bind_Normal by apply onPasswordChange_run.
    erewrite bind_Normal by apply onEmailChange_run.
    rewrite onSubmit_run. reflexivity.
  - cbn [email password emailError passwordError isSubmitted].
    rewrite negb_true_iff, rejected_false. tauto.
Qed.

(** X9. Every operation is idempotent on the state: repeating the same
    edit or the same submit on the state it produced gives that state
    again. *)
Theorem operations_idempotent (ev : Event) (st : State) (w : Env) :
  exists st1,
    valueOf (operation ev st) w = Some st1
    /\ valueOf (st' <- operation ev st ;; operation ev st') w = Some st1.
Proof.
  unfold valueOf. destruct ev as [v|v|]; cbn [operation]; eexists.
  - erewrite bind_Normal by apply onEmailChange_run.
    rewrite !onEmailChange_run. split; reflexivity.
  - erewrite bind_Normal by apply onPasswordChange_run.
    rewrite !onPasswordChange_run. split; reflexivity.
  - erewrite bind_Normal by apply onSubmit_run.
    rewrite !onSubmit_run. split; reflexivity.
Qed.

(* ================================================================== *)
(** ** What [EMAIL_REGEX] lets through *)
(* ================================================================== *)

Lemma accepted_shape s w :
  valueOf (validateEmail s) w = Some [] <-> Shape.emailShape s.
Proof.
  rewrite valueOf_validateEmail, <- emailMatch_shape, <- emailVerdict_nil_iff.
  split; [now intros [= ->] | now intros ->].
Qed.

Lemma length_pos (w : jsstring) : w <> [] -> 1 <= List.length w.
Proof. destruct w; [congruence | simpl; lia]. Qed.

(** X10. An email that [validateEmail] accepts has at least five code
    units, holds no whitespace or line terminator anywhere (leading and
    trailing blanks are not trimmed), and contains an [@] and a dot. *)
Theorem accepted_email_necessary (s : jsstring) (w : Env) :
  valueOf (validateEmail s) w = Some [] ->
  5 <= List.length s
  /\ Forall Shape.nonWhitespace s
  /\ In (cu "@") s
  /\ In (cu ".") s.
Proof.
  intros H. apply accepted_shape in H.
  destruct H as (a & b & c & -> & (Ha & Fa) & (Hb & Fb) & (Hc & Fc)).
  apply length_pos in Ha, Hb, Hc.
  split; [|split; [|split]].
  - rewrite length_app. cbn [List.length]. rewrite length_app.
    cbn [List.length]. lia.
  - apply Forall_app. split; [exact Fa|]. constructor; [reflexivity|].
    apply Forall_app. split; [exact Fb|]. constructor; [reflexivity|exact Fc].
  - apply in_or_app. right. now left.
  - apply in_or_app. right. right. apply in_or_app. right. now left.
Qed.

Lemma accepted_email_necessary_witness :
  valueOf (validateEmail (lit "a@b.c")) env0 = Some []
  /\ 5 <= List.length (lit "a@b.c")
  /\ Forall Shape.nonWhitespace (lit "a@b.c")
  /\ In (cu "@") (lit "a@b.c")
  /\ In (cu ".") (lit "a@b.c").
Proof.
  split; [reflexivity|].
  apply (accepted_email_necessary (lit "a@b.c") env0). reflexivity.
Defined.

Lemma Forall_insert (P : N -> Prop) (x y : jsstring) (c : N) :
  Forall P (x ++ y) -> P c -> Forall P (x ++ c :: y).
Proof.
  intros H Hc. apply Forall_app in H. destruct H as [Hx Hy].
  apply Forall_app. split; [exact Hx | now constructor].
Qed.

Lemma run_insert (x y : jsstring) (c : N) :
  Forall Shape.nonWhitespace (x ++ y) -> Shape.nonWhitespace c ->
  Shape.nonWhitespaceRun (x ++ c :: y).
Proof.
  intros H Hc. split; [now destruct x | now apply Forall_insert].
Qed.

Lemma emailShape_insert (x y : jsstring) (c : N) :
  Shape.emailShape (x ++ y) -> Shape.nonWhitespace c ->
  Shape.emailShape (x ++ c :: y).
Proof.
  intros (a & b & d & Heq & (Ha & Fa) & (Hb & Fb) & (Hd & Fd)) Hc.
  symmetry in Heq. apply app_eq_app in Heq.
  destruct Heq as (l & [[-> ->] | [-> Heq]]).
  - exists (x ++ c :: l), b, d. rewrite <- app_assoc.
    repeat split; trivial; [now destruct x | now apply Forall_insert].
  - destruct l as [|at_ l].
    + cbn [app] in Heq. subst y. rewrite app_nil_r.
      exists (a ++ [c]), b, d. rewrite <- app_assoc.
      repeat split; trivial; [now destruct a|].
      apply Forall_app. split; [exact Fa | now repeat constructor].
    + cbn [app] in Heq. injection Heq as <- Heq.
      apply app_eq_app in Heq.
      destruct Heq as (l2 & [[-> ->] | [-> Heq]]).
      * exists a, (l ++ c :: l2), d.
        rewrite <- ?app_assoc; cbn [app]; rewrite <- ?app_assoc.
        repeat split; trivial; [now destruct l | now apply Forall_insert].
      * destruct l2 as [|dot l2].
        -- cbn [app] in Heq. subst y. rewrite app_nil_r.
           exists a, (b ++ [c]), d.
           rewrite <- ?app_assoc; cbn [app]; rewrite <- ?app_assoc.
           repeat split; trivial; [now destruct b|].
           apply Forall_app. split; [exact Fb | now repeat constructor].
        -- cbn [app] in Heq. injection Heq as <- ->.
           exists a, b, (l2 ++ c :: y).
           rewrite <- ?app_assoc; cbn [app]; rewrite <- ?app_assoc.
           repeat split; trivial; [now destruct l2 | now apply Forall_insert].
Qed.

(** X11. The accepted emails are closed under insertion: putting one more
    non-whitespace code unit anywhere in an accepted email, at either end
    or inside, gives an accepted email. *)
Theorem accepted_email_insert (x y : jsstring) (c : N) (w : Env) :
  valueOf (validateEmail (x ++ y)) w = Some [] ->
  isWhiteSpaceOrLT c = false ->
  valueOf (validateEmail (x ++ c :: y)) w = Some [].
Proof.
  rewrite !accepted_shape. apply emailShape_insert.
Qed.

Lemma accepted_email_insert_witness :
  valueOf (validateEmail (lit "a@" ++ lit "b.c")) env0 = Some []
  /\ isWhiteSpaceOrLT (cu "@") = false
  /\ valueOf (validateEmail (lit "a@" ++ cu "@" :: lit "b.c")) env0 = Some [].
Proof.
  split; [reflexivity|]. split; [reflexivity|].
  apply (accepted_email_insert (lit "a@") (lit "b.c") (cu "@") env0);
    reflexivity.
Defined.

(* ================================================================== *)
(** ** The element tree *)
(* ================================================================== *)

Lemma strictEq_refl s : strictEq s s = true.
Proof. now apply strictEq_eq. Qed.

Lemma strictEq_suffix s t : t <> [] -> strictEq s (s ++ t) = false.
Proof.
  intros Ht. apply not_true_iff_false. intros H. apply strictEq_eq in H.
  apply (f_equal (@List.length N)) in H. rewrite length_app in H.
  destruct t; [congruence | simpl in H; lia].
Qed.

Ltac dom_eval :=
  cbn [Dom.select Dom.propIs Dom.prop Dom.lookupProp attr Dom.tagOf
       Dom.textContent String.eqb Ascii.eqb Bool.eqb app hd_error].

(** X12. What [FormInput] renders is wired for assistive technology in
    the same way for every props value: the label points at the input by
    its id; the input carries the value; it is marked invalid exactly
    when [error] is non-empty; and the element its [aria-describedby]
    names is the error paragraph, whose text is [error], when [error] is
    non-empty, and no element at all when it is empty. *)
Theorem FormInput_wiring (p : Props.t) :
  exists inp lab,
    Dom.getElementById (Props.id p) (FormInput p) = Some inp
    /\ Dom.tagOf inp = Some "input"%string
    /\ Dom.prop "value" inp = Some (PStr (Props.value p))
    /\ Dom.getElementsByTagName "label" (FormInput p) = [lab]
    /\ Dom.prop "htmlFor" lab = Some (PStr (Props.id p))
    /\ Dom.textContent lab = Props.label p
    /\ Dom.prop "aria-invalid" inp = Some (PBool (truthy (Props.error p)))
    /\ Dom.prop "aria-describedby" inp
       = Some (PStr (Props.id p ++ lit "-error"))
    /\ (Props.error p = [] ->
        Dom.getElementById (Props.id p ++ lit "-error") (FormInput p) = None)
    /\ (Props.error p <> [] ->
        exists par,
          Dom.getElementById (Props.id p ++ lit "-error") (FormInput p)
          = Some par
          /\ Dom.tagOf par = Some "p"%string
          /\ Dom.textContent par = Props.error p).
Proof.
  unfold Dom.getElementById, Dom.getElementsByTagName, FormInput.
  dom_eval.
  rewrite strictEq_refl, strictEq_suffix by discriminate.
  destruct (Props.error p) as [|c r]; cbn [truthy]; dom_eval.
  - do 2 eexists. repeat split; try reflexivity.
    + dom_eval. apply app_nil_r.
    + intros H. now contradiction H.
  - rewrite strictEq_refl. dom_eval.
    do 2 eexists. repeat split; try reflexivity.
    + dom_eval. apply app_nil_r.
    + discriminate.
    + intros _. eexists. repeat split. dom_eval. now rewrite app_nil_r.
Qed.

(** The queries below, answered for the tree of any view. *)
Lemma App_return_facts (v : View) :
  exists emailInput passwordInput form btn,
    Dom.getElementById (lit "email") (App_return v) = Some emailInput
    /\ Dom.prop "value" emailInput = Some (PStr (emailValue v))
    /\ Dom.getElementById (lit "password") (App_return v) = Some passwordInput
    /\ Dom.prop "value" passwordInput = Some (PStr (passwordValue v))
    /\ Dom.prop "type" passwordInput = Some (PStr (lit "password"))
    /\ option_map Dom.textContent
         (Dom.getElementById (lit "email-error") (App_return v))
       = (if truthy (emailErrorShown v) then Some (emailErrorShown v)
          else None)
    /\ option_map Dom.textContent
         (Dom.getElementById (lit "password-error") (App_return v))
       = (if truthy (passwordErrorShown v) then Some (passwordErrorShown v)
          else None)
    /\ Dom.getElementsByTagName "form" (App_return v) = [form]
    /\ Dom.prop "noValidate" form = Some (PBool true)
    /\ Dom.getElementsByTagName "button" (App_return v) = [btn]
    /\ Dom.prop "type" btn = Some (PStr (lit "submit"))
    /\ Dom.prop "disabled" btn = Some (PBool (negb (isFormValid v)))
    /\ List.length (Dom.getElementsByRole (lit "status") (App_return v))
       = (if bannerShown v then 1 else 0).
Proof.
  destruct v as [ev ee eh pv pe ph fs banner valid].
  cbn [emailValue emailErrorShown passwordValue passwordErrorShown
       bannerShown isFormValid].
  destruct ee as [|c1 r1], pe as [|c2 r2], banner;
    do 4 eexists; cbn; rewrite ?app_nil_r; repeat split; reflexivity.
Qed.

(** X13. The tree [App] returns shows the values of the render: the two
    inputs carry the email and the password (the latter of type
    password); under each field there is an error paragraph exactly when
    the field's error is non-empty, and its text is that error; the one
    form has browser validation switched off; the one button is a submit
    button, disabled exactly when [isFormValid] is false; and there is a
    status banner exactly when [isSubmitted] is true. *)
Theorem App_return_shows_view (v : View) :
  exists emailInput passwordInput form btn,
    Dom.getElementById (lit "email") (App_return v) = Some emailInput
    /\ Dom.prop "value" emailInput = Some (PStr (emailValue v))
    /\ Dom.getElementById (lit "password") (App_return v) = Some passwordInput
    /\ Dom.prop "value" passwordInput = Some (PStr (passwordValue v))
    /\ Dom.prop "type" passwordInput = Some (PStr (lit "password"))
    /\ option_map Dom.textContent
         (Dom.getElementById (lit "email-error") (App_return v))
       = (if truthy (emailErrorShown v) then Some (emailErrorShown v)
          else None)
    /\ option_map Dom.textContent
         (Dom.getElementById (lit "password-error") (App_return v))
       = (if truthy (passwordErrorShown v) then Some (passwordErrorShown v)
          else None)
    /\ Dom.getElementsByTagName "form" (App_return v) = [form]
    /\ Dom.prop "noValidate" form = Some (PBool true)
    /\ Dom.getElementsByTagName "button" (App_return v) = [btn]
    /\ Dom.prop "type" btn = Some (PStr (lit "submit"))
    /\ Dom.prop "disabled" btn = Some (PBool (negb (isFormValid v)))
    /\ List.length (Dom.getElementsByRole (lit "status") (App_return v))
       = (if bannerShown v then 1 else 0).
Proof. apply App_return_facts. Qed.

(** X14. In the tree [App] returns, for every view: no two elements
    share an id; each of the two labels points at an input of the tree;
    and the element an input's [aria-describedby] names exists exactly
    when the input is marked [aria-invalid]. *)
Theorem App_return_ids (v : View) :
  NoDup (Dom.ids (App_return v))
  /\ List.length (Dom.getElementsByTagName "label" (App_return v)) = 2
  /\ Forall (fun lab =>
               exists i inp,
                 Dom.prop "htmlFor" lab = Some (PStr i)
                 /\ Dom.getElementById i (App_return v) = Some inp
                 /\ Dom.tagOf inp = Some "input"%string)
            (Dom.getElementsByTagName "label" (App_return v))
  /\ List.length (Dom.getElementsByTagName "input" (App_return v)) = 2
  /\ Forall (fun inp =>
               exists d,
                 Dom.prop "aria-describedby" inp = Some (PStr d)
                 /\ (Dom.getElementById d (App_return v) <> None <->
                     Dom.prop "aria-invalid" inp = Some (PBool true)))
            (Dom.getElementsByTagName "input" (App_return v)).
Proof.
  destruct v as [ev ee eh pv pe ph fs banner valid].
  destruct ee as [|c1 r1], pe as [|c2 r2], banner; cbn;
    (split; [repeat constructor; cbn; intuition discriminate|]);
    (split; [reflexivity|]);
    (split; [repeat constructor; do 2 eexists; repeat split; reflexivity|]);
    (split; [reflexivity|]);
    repeat constructor; eexists; (split; [reflexivity|]); cbn;
    split; intros H;
    first [reflexivity | discriminate H | now contradiction H | discriminate].
Qed.


Lemma dispatchSubmit_step m : dispatchSubmit m = step m Submit.
Proof. reflexivity. Qed.




Lemma tree_errors v :
  option_map Dom.textContent
    (Dom.getElementById (lit "email-error") (App_return v))
  = (if truthy (emailErrorShown v) then Some (emailErrorShown v) else None)
  /\ option_map Dom.textContent
       (Dom.getElementById (lit "password-error") (App_return v))
     = (if truthy (passwordErrorShown v) then Some (passwordErrorShown v)
        else None).
Proof.
  destruct (App_return_facts v)
    as (_ & _ & _ & _ & _ & _ & _ & _ & _ & H6 & H7 & _).
  now split.
Qed.

Lemma tree_button v :
  exists btn,
    Dom.getElementsByTagName "button" (App_return v) = [btn]
    /\ Dom.prop "disabled" btn = Some (PBool (negb (isFormValid v))).
Proof.
  destruct (App_return_facts v)
    as (_ & _ & _ & btn & _ & _ & _ & _ & _ & _ & _ & _ & _ & H10 & _ & H12 & _).
  now exists btn.
Qed.

Lemma tree_banner v :
  Dom.getElementsByRole (lit "status") (App_return v) = [] <->
  bannerShown v = false.
Proof.
  destruct (App_return_facts v)
    as (_ & _ & _ & _ & _ & _ & _ & _ & _ & _ & _ & _ & _ & _ & _ & _ & H13).
  rewrite <- length_zero_iff_nil, H13.
  destruct (bannerShown v); split; congruence.
Qed.


(** X16. Submitting through the tree shows the right outcome. On any
    render reached from mount, a submit event sent to the form completes
    normally; in the next render the status banner is there exactly when
    the button was enabled; and under each field there is an error
    paragraph exactly when the validator returns a non-empty message for
    the value shown, the paragraph's text being that message. *)
Theorem submit_through_tree (evs : list Event) (w : Env) :
  exists m w' btn m1 w1 msg,
    session evs w = (Normal m, w')
    /\ Dom.getElementsByTagName "button" (App_return (view m)) = [btn]
    /\ dispatchSubmit m w' = (Normal m1, w1)
    /\ (Dom.getElementsByRole (lit "status") (App_return (view m1)) <> [] <->
        Dom.prop "disabled" btn = Some (PBool false))
    /\ valueOf (validateEmail (emailValue (view m1))) w1 = Some msg
    /\ option_map Dom.textContent
         (Dom.getElementById (lit "email-error") (App_return (view m1)))
       = (if truthy msg then Some msg else None)
    /\ option_map Dom.textContent
         (Dom.getElementById (lit "password-error") (App_return (view m1)))
       = (if truthy (validatePassword (passwordValue (view m1)))
          then Some (validatePassword (passwordValue (view m1)))
          else None).
Proof.
  destruct (session_run evs w) as (m & w' & Hrun & Hm).
  destruct (step_run m Submit w' Hm) as (m1 & w1 & Hstep & Hm1 & Hop).
  apply operation_cases in Hop. destruct Hop as (Hst & _).
  destruct (tree_button (view m)) as (btn & Hbtn & Hdis).
  destruct (tree_errors (view m1)) as (He & Hp).
  pose proof (tree_banner (view m1)) as Hban.
  exists m, w', btn, m1, w1, (emailVerdict (emailValue (view m1))).
  split; [exact Hrun|]. split; [exact Hbtn|].
  rewrite dispatchSubmit_step. split; [exact Hstep|].
  rewrite valueOf_validateEmail, He, Hp, Hdis.
  rewrite (coherent_view m1 Hm1), Hst in Hban |- *.
  rewrite (coherent_view m Hm).
  cbn [viewOf bannerShown isSubmitted emailValue passwordValue
       emailErrorShown passwordErrorShown isFormValid email password
       emailError passwordError] in Hban |- *.
  assert (negb (rejected (email (hookState (inst m)))
                         (password (hookState (inst m))))
          = formValidity (email (hookState (inst m)))
                         (password (hookState (inst m)))) as Hrv.
  { destruct (formValidity _ _) eqn:Hv.
    - apply negb_true_iff, rejected_false. now apply formValidity_true.
    - apply negb_false_iff. apply not_false_iff_true. intros Hr.
      apply rejected_false, formValidity_true in Hr. congruence. }
  rewrite Hrv in Hban |- *.
  split; [|auto]. split.
  - intros Hne. destruct (formValidity _ _); [reflexivity|].
    exfalso. apply Hne. now apply Hban.
  - intros [= Hv] Hnil. apply Hban in Hnil.
    apply negb_false_iff in Hv. congruence.
Qed.
